(** * liquibase/cicd.py: a shallow embedding and its properties

    The script drives an external SQL command-line tool over four changelog
    areas and cleans the XML changelogs around a regeneration.  This file
    embeds, function by function, the parts of [cicd.py] that decide what
    happens to files and when the run is aborted:

    - Python [str] values are lists of Unicode code points ([N]);
    - the filesystem is a finite map from relative paths to file contents
      (regular files only; contents are the decoded text);
    - effects are threaded through a small state-and-exception monad whose
      state carries the files, the external database and a trace of the
      filesystem and subprocess calls the script itself performs;
    - the external tool is a parameter: the script only sees its exit code,
      its output and whatever it did to the files;
    - [logging] calls have no influence on control flow or on files and are
      left out, except [log.getLogger()], which raises. *)

From Stdlib Require Import Ascii String List ZArith Lia Bool.
From stdpp Require Import gmap strings list fin_maps.

Local Open Scope N_scope.
Local Open Scope list_scope.

(** ** Text *)

Abbreviation char := N (only parsing).
Abbreviation str := (list N) (only parsing).

(** A string literal of the source, as a list of code points. *)
Definition lit (s : string) : str :=
  map N_of_ascii (list_ascii_of_string s).

Definition LF : char := 10.
Definition CR : char := 13.

(** [str.isspace] on one character: the code points Python treats as
    whitespace in [strip()] and [split()]. *)
Definition isspace (c : char) : bool :=
  ((9 <=? c) && (c <=? 13)) || ((28 <=? c) && (c <=? 32))
  || (c =? 133) || (c =? 160) || (c =? 5760)
  || ((8192 <=? c) && (c <=? 8202)) || (c =? 8232) || (c =? 8233)
  || (c =? 8239) || (c =? 8287) || (c =? 12288).

(** The line boundaries of [str.splitlines]. *)
Definition is_linebreak (c : char) : bool :=
  ((10 <=? c) && (c <=? 13)) || ((28 <=? c) && (c <=? 30))
  || (c =? 133) || (c =? 8232) || (c =? 8233).

(** [s.startswith(p)] *)
Fixpoint startswith (s p : str) {struct p} : bool :=
  match p, s with
  | [], _ => true
  | _ :: _, [] => false
  | c :: p', d :: s' => (c =? d) && startswith s' p'
  end.

(** [x in s] for strings: [x] occurs in [s] as a contiguous substring. *)
Fixpoint str_in (x s : str) : bool :=
  startswith s x ||
  match s with
  | [] => false
  | _ :: s' => str_in x s'
  end.

(** The truth value of [line.strip()]: some character is not whitespace. *)
Definition strip_nonempty (line : str) : bool :=
  existsb (fun c => negb (isspace c)) line.

(** [s.split()]: the maximal runs of non-whitespace characters, in order. *)
Fixpoint split_from (cur : str) (s : str) : list str :=
  match s with
  | [] => match cur with [] => [] | _ => [cur] end
  | c :: s' =>
      if isspace c
      then match cur with
           | [] => split_from [] s'
           | _ => cur :: split_from [] s'
           end
      else split_from (cur ++ [c]) s'
  end.

Definition split (s : str) : list str := split_from [] s.

(** [s.replace(old, new)] for a non-empty [old]: leftmost, non-overlapping. *)
Fixpoint replace_from (fuel : nat) (old new s : str) : str :=
  match fuel with
  | O => s
  | S fuel' =>
      match s with
      | [] => []
      | c :: s' =>
          if startswith s old
          then new ++ replace_from fuel' old new (drop (length old) s)
          else c :: replace_from fuel' old new s'
      end
  end.

Definition replace (old new s : str) : str :=
  replace_from (length s) old new s.

(** ** Lines *)

(** [f.readline()] on a file opened in text mode with the default
    [newline=None]: the line ends at the first ["\n"], ["\r\n"] or ["\r"],
    and the terminator is handed to the caller as ["\n"].  Returns the line
    and what is left of the file. *)
Fixpoint readline (s : str) : str * str :=
  match s with
  | [] => ([], [])
  | c :: s' =>
      if c =? LF then ([LF], s')
      else if c =? CR then
        match s' with
        | d :: s'' => if d =? LF then ([LF], s'') else ([LF], s')
        | [] => ([LF], [])
        end
      else let '(l, r) := readline s' in (c :: l, r)
  end.

(** [for line in f]: every line [readline] yields until the end of file. *)
Fixpoint file_lines (s : str) : list str :=
  match s with
  | [] => []
  | c :: s' =>
      if c =? LF then [LF] :: file_lines s'
      else if c =? CR then
        match s' with
        | d :: s'' =>
            if d =? LF then [LF] :: file_lines s'' else [LF] :: file_lines s'
        | [] => [[LF]]
        end
      else match file_lines s' with
           | [] => [[c]]
           | l :: ls => (c :: l) :: ls
           end
  end.

(** [s.splitlines()]: lines without their terminators; ["\r\n"] is one
    boundary, and a final terminator does not open an empty last line. *)
Fixpoint splitlines (s : str) : list str :=
  match s with
  | [] => []
  | c :: s' =>
      if is_linebreak c then
        if c =? CR then
          match s' with
          | d :: s'' => if d =? LF then [] :: splitlines s'' else [] :: splitlines s'
          | [] => [[]]
          end
        else [] :: splitlines s'
      else match splitlines s' with
           | [] => [[c]]
           | l :: ls => (c :: l) :: ls
           end
  end.

(** ** Regular expressions

    [re.search] is only used for its truth value, so a pattern is modelled
    by the language it denotes and matched with derivatives; greedy and
    lazy repetition denote the same language. *)

Inductive regex : Type :=
  | Void
  | Eps
  | Chr (p : char → bool)
  | Cat (r1 r2 : regex)
  | Alt (r1 r2 : regex)
  | Star (r : regex).

Fixpoint nullable (r : regex) : bool :=
  match r with
  | Void => false
  | Eps => true
  | Chr _ => false
  | Cat r1 r2 => nullable r1 && nullable r2
  | Alt r1 r2 => nullable r1 || nullable r2
  | Star _ => true
  end.

Fixpoint deriv (c : char) (r : regex) : regex :=
  match r with
  | Void => Void
  | Eps => Void
  | Chr p => if p c then Eps else Void
  | Cat r1 r2 =>
      if nullable r1
      then Alt (Cat (deriv c r1) r2) (deriv c r2)
      else Cat (deriv c r1) r2
  | Alt r1 r2 => Alt (deriv c r1) (deriv c r2)
  | Star r1 => Cat (deriv c r1) (Star r1)
  end.

(** [re.fullmatch]: the whole string is in the language. *)
Fixpoint matches (r : regex) (s : str) : bool :=
  match s with
  | [] => nullable r
  | c :: s' => matches (deriv c r) s'
  end.

(** Any character at all. *)
Definition any_char : regex := Chr (fun _ => true).

(** [.] without [re.DOTALL]: any character except a newline. *)
Definition dot : regex := Chr (fun c => negb (c =? LF)).

(** A run of literal characters. *)
Definition lits (x : str) : regex :=
  foldr (fun c r => Cat (Chr (N.eqb c)) r) Eps x.

(** The truth value of [re.search(r, s)]: some substring of [s] matches. *)
Definition re_search (r : regex) (s : str) : bool :=
  matches (Cat (Star any_char) (Cat r (Star any_char))) s.

Definition dquote : char := 34.

(** The three literal pieces of the pattern of [pre_generate].  In the
    Python string the escapes [\<], [\(] and [\)] reach [re] unchanged and
    there denote the literal characters [<], [(] and [)]. *)
Definition changeSet_open : str := lit "<changeSet".
Definition author_open : str := lit "author=" ++ [dquote] ++ lit "(".
Definition generated_close : str := lit ")-Generated" ++ [dquote].

(** The pattern: [<changeSet], any characters, [author=] with an opening
    quote and an opening parenthesis, any characters, a closing parenthesis
    with [-Generated] and a closing quote, any characters. *)
Definition generated_re : regex :=
  Cat (lits changeSet_open)
    (Cat (Star dot)
       (Cat (lits author_open)
          (Cat (Star dot)
             (Cat (lits generated_close) (Star dot))))).


(** ** Paths and [glob] *)

(** [os.path.join(a, b)] on POSIX. *)
Definition path_join (a b : str) : str :=
  if startswith b (lit "/") then b
  else match last a with
       | None => b
       | Some c => if c =? 47 then a ++ b else a ++ lit "/" ++ b
       end.

(** [s.lstrip(...)] for the characters satisfying [f]. *)
Fixpoint lstrip_while (f : char → bool) (s : str) : str :=
  match s with
  | [] => []
  | c :: s' => if f c then lstrip_while f s' else s
  end.

(** [os.path.dirname(p)] on POSIX: everything up to the last slash,
    without trailing slashes unless it consists of slashes only. *)
Definition dirname (p : str) : str :=
  let head := reverse (lstrip_while (fun c => negb (c =? 47)) (reverse p)) in
  if forallb (N.eqb 47) head then head
  else reverse (lstrip_while (N.eqb 47) (reverse head)).

(** [s.split("/")] *)
Fixpoint components (s : str) : list str :=
  match s with
  | [] => [[]]
  | c :: s' =>
      if c =? 47 then [] :: components s'
      else match components s' with
           | [] => [[c]]
           | x :: xs => (c :: x) :: xs
           end
  end.

(** [fnmatch(name, "*.xml")] on POSIX (case-sensitive). *)
Definition fnmatch_xml (name : str) : bool :=
  startswith (reverse name) (reverse (lit ".xml")).

(** [glob._ishidden] *)
Definition ishidden (name : str) : bool := startswith name (lit ".").

(** Whether [path] is produced by
    [glob.iglob(f'{directory}/**/*.xml', recursive=True)], for a
    [directory] without wildcard characters: [path] lies under
    [directory], no component below it is empty or hidden, and the file
    name matches [*.xml]. *)
Definition glob_match (directory path : str) : bool :=
  startswith path (directory ++ lit "/") &&
  let comps := components (drop (length directory + 1) path) in
  forallb (fun x => negb (ishidden x) && negb (Nat.eqb (length x) 0)) comps &&
  match last comps with
  | Some name => fnmatch_xml name
  | None => false
  end.

(** ** The world the script runs in *)

Inductive open_mode : Type := mode_r | mode_r_plus | mode_w.

(** One [subprocess.run]: the command line, the working directory, what is
    fed to standard input and the environment handed to the child. *)
Record call : Type := Call {
  argv : list str;
  cwd : str;
  input : str;
  env : gmap str str
}.

(** What the script looks at in the object [subprocess.run] returns. *)
Record CompletedProcess : Type := Completed {
  returncode : Z;
  stdout : str
}.

(** The accesses the script itself makes to the filesystem, and the
    external processes it starts. *)
Inductive event : Type :=
  | EvGlob (directory : str)
  | EvExists (path : str)
  | EvOpen (path : str) (mode : open_mode)
  | EvWrite (path : str)
  | EvRemove (path : str)
  | EvExtract (wallet : str)
  | EvRun (c : call).

Inductive exn : Type :=
  | FileNotFoundError
  | IndexError
  | KeyError
  | AttributeError
  | BadZipFile
  | SystemExit (code : Z).

Record world (DB : Type) : Type := World {
  files : gmap str str;
  db : DB;
  trace : list event
}.
Arguments World {DB} _ _ _.
Arguments files {DB} _.
Arguments db {DB} _.
Arguments trace {DB} _.

(** A computation either returns a value or raises; in both cases the
    effects performed so far stay in the world. *)
Inductive result (DB A : Type) : Type :=
  | Ok (a : A) (w : world DB)
  | Raise (e : exn) (w : world DB).
Arguments Ok {DB A} _ _.
Arguments Raise {DB A} _ _.

Definition final {DB A} (r : result DB A) : world DB :=
  match r with
  | Ok _ w => w
  | Raise _ w => w
  end.

Definition returns {DB A} (r : result DB A) : bool :=
  match r with
  | Ok _ _ => true
  | Raise _ _ => false
  end.

Definition M (DB A : Type) : Type := world DB → result DB A.

Definition ret {DB A} (a : A) : M DB A := fun w => Ok a w.

Definition raise {DB A} (e : exn) : M DB A := fun w => Raise e w.

Definition bind {DB A B} (m : M DB A) (k : A → M DB B) : M DB B :=
  fun w =>
    match m w with
    | Ok a w' => k a w'
    | Raise e w' => Raise e w'
    end.

(** [try: m except: handler], with a bare [except] clause. *)
Definition try_except {DB A} (m : M DB A) (handler : M DB A) : M DB A :=
  fun w =>
    match m w with
    | Ok a w' => Ok a w'
    | Raise _ w' => handler w'
    end.

Declare Scope prog_scope.
Delimit Scope prog_scope with prog.
Notation "x ← m ; k" := (bind m (fun x => k))
  (at level 20, m at level 100, k at level 200, only parsing) : prog_scope.
Notation "m ;; k" := (bind m (fun _ => k))
  (at level 100, k at level 200, only parsing, right associativity) : prog_scope.
Local Open Scope prog_scope.

(** [for x in l: body(x)] *)
Fixpoint for_each {DB A} (l : list A) (body : A → M DB unit) : M DB unit :=
  match l with
  | [] => ret tt
  | x :: l' => body x ;; for_each l' body
  end.

Definition emit {DB} (ev : event) : M DB unit :=
  fun w => Ok tt (World (files w) (db w) (trace w ++ [ev])).

(** [os.remove(path)] *)
Definition os_remove {DB} (path : str) : M DB unit :=
  emit (EvRemove path) ;;
  fun w =>
    match files w !! path with
    | Some _ => Ok tt (World (delete path (files w)) (db w) (trace w))
    | None => Raise FileNotFoundError w
    end.

(** [open(path, mode)] for an existing file: hands back the content the
    handle reads.  On POSIX a handle keeps reading this content after the
    name has been removed. *)
Definition open_existing {DB} (path : str) (mode : open_mode) : M DB str :=
  emit (EvOpen path mode) ;;
  fun w =>
    match files w !! path with
    | Some content => Ok content w
    | None => Raise FileNotFoundError w
    end.

(** What has been written through a handle once it is flushed and closed:
    the file holds [content]. *)
Definition store {DB} (path : str) (content : str) : M DB unit :=
  emit (EvWrite path) ;;
  fun w => Ok tt (World (<[path := content]> (files w)) (db w) (trace w)).

(** [os.path.exists(path)] *)
Definition os_path_exists {DB} (path : str) : M DB bool :=
  emit (EvExists path) ;;
  fun w => Ok (bool_decide (is_Some (files w !! path))) w.

(** [f.read()] in text mode: the content with every line terminator read
    as a newline. *)
Definition read_text (content : str) : str := concat (file_lines content).

(** ** Rewriting a file through two handles

    [post_generate] opens the same file twice, once for reading and once
    with ["r+"], and copies the kept lines over the file's own beginning.
    The two handles share one content; reads and writes are interleaved
    line by line, every read seeing the writes made before it. *)

Record handles : Type := Handles {
  buf : str;      (* the content of the file *)
  rpos : nat;     (* position of the reader *)
  wpos : nat      (* position of the writer *)
}.

(** Writing [data] at [pos] overwrites what is there and extends the file
    if needed. *)
Definition write_at (content : str) (pos : nat) (data : str) : str :=
  take pos content ++ data ++ drop (pos + length data) content.

(** The loop [for line in reader: if line.strip(): writer.write(line)].
    Every line takes at least one character, so a file of [n] characters
    is read in at most [n] rounds. *)
Fixpoint copy_lines (rounds : nat) (h : handles) : handles :=
  match rounds with
  | O => h
  | S rounds' =>
      match drop (rpos h) (buf h) with
      | [] => h
      | (_ :: _) as unread =>
          let '(line, rest) := readline unread in
          let rpos' := (length (buf h) - length rest)%nat in
          if strip_nonempty line
          then copy_lines rounds'
                 (Handles (write_at (buf h) (wpos h) line) rpos'
                    (wpos h + length line)%nat)
          else copy_lines rounds' (Handles (buf h) rpos' (wpos h))
      end
  end.

(** The whole [with] block on one file, [writer.truncate()] included. *)
Definition rewrite_in_place (content : str) : str :=
  let h := copy_lines (length content) (Handles content 0 0) in
  take (wpos h) (buf h).

(** ** The script *)

Inductive action : Type := act_deploy | act_generate | act_destroy.

(** The namespace [parser.parse_args()] returns. *)
Record Args : Type := {
  func : action;
  dbName : str;
  dbUser : str;
  dbPass : option str;
  dbWallet : option str;
  debug : bool
}.

(** Truth value of an optional string argument: absent and empty are both
    false. *)
Definition truthy (o : option str) : bool :=
  match o with
  | Some (_ :: _) => true
  | _ => false
  end.

Definition error_matches : list str :=
  [lit "Error Message"; lit "ORA-"; lit "SQL Error";
   lit "Validation Failed"; lit "Unexpected internal error"].

(** [any(x in line for x in error_matches)] *)
Definition has_error_marker (line : str) : bool :=
  existsb (fun x => str_in x line) error_matches.

(** [filter(None, result_list)]: the non-empty lines. *)
Definition nonempty (line : str) : bool :=
  match line with
  | [] => false
  | _ :: _ => true
  end.

(** The scan of the transcript in [run_sqlcl]: the value of [exit_status]
    after the loop. *)
Definition scan_transcript (out : str) : Z :=
  foldl (fun exit_status line =>
           if has_error_marker line then 1%Z else exit_status)
        0%Z (List.filter nonempty (splitlines out)).

Section Program.

(** The external database, and the tool [sql]: given a call, the
    database and the files, it answers with an exit code and a
    transcript and leaves a database and files behind. *)
Context {DB : Type}.
Variable sqlcl :
  call → DB → gmap str str → CompletedProcess * DB * gmap str str.

(** The order in which the operating system lists directory entries. *)
Variable scandir_order : list str → list str.
Hypothesis scandir_order_perm : ∀ l, scandir_order l ≡ₚ l.

(** [os.environ], [os.path.abspath] and [ZipFile.extractall]. *)
Variable environ : gmap str str.
Variable abspath : str → str.
Variable extractall : str → str → gmap str str → option (gmap str str).

Abbreviation prog := (M DB) (only parsing).

(** [glob.iglob(f'{directory}/**/*.xml', recursive=True)].  The script
    removes only files it has already been handed and creates none, so
    the lazy enumeration yields what a listing taken at the start
    yields. *)
Definition iglob_xml (directory : str) : prog (list str) :=
  emit (EvGlob directory) ;;
  fun w =>
    Ok (List.filter (glob_match directory)
          (scandir_order (elements (dom (files w))))) w.

(** [subprocess.run(...)] *)
Definition subprocess_run (c : call) : prog CompletedProcess :=
  emit (EvRun c) ;;
  fun w =>
    let '(r, d, f) := sqlcl c (db w) (files w) in
    Ok r (World f d (trace w)).

(** The body of the inner loop of [pre_generate]; its [continue] goes
    on with the next line of the same file. *)
Definition scan_line (file line : str) : prog unit :=
  if re_search generated_re line
  then os_remove file
  else ret tt.

(** The body of the outer loop of [pre_generate]. *)
Definition pre_generate_file (directory : str) (remove_controller : bool)
    (file : str) : prog unit :=
  if startswith file (directory ++ lit "/controller") && remove_controller
  then os_remove file
  else
    content ← open_existing file mode_r;
    for_each (file_lines content) (scan_line file).

Definition pre_generate (directory : str) (remove_controller : bool)
  : prog unit :=
  found ← iglob_xml directory;
  for_each found (pre_generate_file directory remove_controller).

(** The body of the loop of [post_generate]. *)
Definition post_generate_file (file : str) : prog unit :=
  content ← open_existing file mode_r;
  open_existing file mode_r_plus ;;
  store file (rewrite_in_place content).

Definition post_generate (directory : str) : prog unit :=
  found ← iglob_xml directory;
  for_each found post_generate_file.

Definition sql_cmd (run_as password service cmd : str) : str :=
  [LF] ++ lit "        conn " ++ run_as ++ lit "/" ++ password ++ lit "@"
  ++ service ++ lit "_high" ++ [LF] ++ lit "        " ++ cmd ++ [LF]
  ++ lit "    ".

Definition run_sqlcl (run_as password service path cmd tns_admin : str)
  : prog unit :=
  let lb_env :=
    <[lit "TNS_ADMIN" := tns_admin]> (<[lit "password" := password]> environ) in
  result ← subprocess_run
             (Call [lit "sql"; lit "/nolog"] (lit "./" ++ path)
                (sql_cmd run_as password service cmd) lb_env);
  let exit_status := scan_transcript (stdout result) in
  if negb (returncode result =? 0)%Z || negb (exit_status =? 0)%Z
  then raise (SystemExit 1)
  else ret tt.

Definition deploy_call (path user password tns_admin : str) (args : Args)
  : prog unit :=
  present ← os_path_exists (path_join path (lit "controller.xml"));
  if present
  then run_sqlcl user password (dbName args) path
         (lit "lb update -changelog-file controller.xml;") tns_admin
  else ret tt.

Definition schema_role (args : Args) : str :=
  lit "ADMIN[" ++ dbUser args ++ lit "]".

Definition deploy (password tns_admin : str) (args : Args) : prog unit :=
  deploy_call (lit "admin") (lit "ADMIN") password tns_admin args ;;
  deploy_call (lit "schema") (schema_role args) password tns_admin args ;;
  deploy_call (lit "data") (schema_role args) password tns_admin args ;;
  deploy_call (lit "apex") (schema_role args) password tns_admin args.

Definition generate (password tns_admin : str) (args : Args) : prog unit :=
  pre_generate (lit "schema") true ;;
  run_sqlcl (schema_role args) password (dbName args) (lit "schema")
    (lit "lb generate-schema -split -grants -runonchange -fail-on-error")
    tns_admin ;;
  post_generate (lit "schema") ;;
  pre_generate (lit "apex") false ;;
  run_sqlcl (schema_role args) password (dbName args) (lit "apex")
    (lit "lb generate-apex-object -applicationid 103 -expaclassignments true -expirnotif true -exporiginalids true -exppubreports true -expsavedreports true -exptranslations true -skipexportdate true")
    tns_admin ;;
  post_generate (lit "apex").

Definition destroy (password tns_admin : str) (args : Args) : prog unit :=
  run_sqlcl (lit "ADMIN") password (dbName args) (lit "admin")
    (lit "lb rollback-count -changelog controller.xml -count 999;")
    tns_admin.

Definition upd_sqlnet (wallet : str) : prog unit :=
  let tns_admin := dirname (abspath wallet) in
  emit (EvExtract wallet) ;;
  (fun w =>
     match extractall wallet tns_admin (files w) with
     | Some f => Ok tt (World f (db w) (trace w))
     | None => Raise BadZipFile w
     end) ;;
  content ← open_existing (path_join tns_admin (lit "sqlnet.ora")) mode_r;
  let s := replace (lit "DIRECTORY=" ++ [dquote] ++ lit "?/network/admin" ++ [dquote])
             (lit "DIRECTORY=" ++ [dquote] ++ tns_admin ++ [dquote])
             (read_text content) in
  emit (EvOpen (path_join tns_admin (lit "sqlnet.ora")) mode_w) ;;
  store (path_join tns_admin (lit "sqlnet.ora")) s.

(** The block of [__main__] that settles the password. *)
Definition resolve_password (args : Args) : prog str :=
  if truthy (dbPass args)
  then ret (default [] (dbPass args))
  else
    try_except
      (content ← open_existing (lit ".secret") mode_r;
       match last (split (fst (readline content))) with
       | Some token => ret token
       | None => raise IndexError
       end)
      (raise (SystemExit 1)).

(** The block of [__main__] that settles the configuration directory. *)
Definition resolve_tns_admin (args : Args) : prog str :=
  if truthy (dbWallet args)
  then
    upd_sqlnet (default [] (dbWallet args)) ;;
    ret (dirname (abspath (default [] (dbWallet args))))
  else
    tns_admin ← try_except
                  (match environ !! lit "TNS_ADMIN" with
                   | Some v => ret v
                   | None => raise KeyError
                   end)
                  (raise (SystemExit 1));
    present ← os_path_exists (tns_admin ++ lit "/tnsnames.ora");
    if present then ret tns_admin else raise (SystemExit 1).

Definition run_action (password tns_admin : str) (args : Args) : prog unit :=
  match func args with
  | act_deploy => deploy password tns_admin args
  | act_generate => generate password tns_admin args
  | act_destroy => destroy password tns_admin args
  end.

(** [__main__] from [parser.parse_args()] on.  [log] is a [Logger], which
    has no [getLogger]: with [--debug] the call raises. *)
Definition main (args : Args) : prog unit :=
  (if debug args then raise AttributeError else ret tt) ;;
  password ← resolve_password args;
  tns_admin ← resolve_tns_admin args;
  run_action password tns_admin args ;;
  raise (SystemExit 0).

End Program.

(** ** The specification's reading of some notions *)


(** The password as the specification words it: the first
    whitespace-delimited token on the last line of the secret file. *)
Definition spec_first_token_last_line (content : str) : option str :=
  match last (file_lines content) with
  | Some line => head (split line)
  | None => None
  end.

(** ** Vocabulary for the statements *)

(** [I] holds of the world a computation leaves behind, whether it returns
    or raises, whenever it held before. *)
Definition preserves {DB A} (I : world DB → Prop) (m : M DB A) : Prop :=
  ∀ w, I w → I (final (m w)).








(** The trace of [w] is [t0] followed by events that all satisfy [P]. *)
Definition extends {DB} (P : event → Prop) (t0 : list event)
    (w : world DB) : Prop :=
  ∃ evs, trace w = t0 ++ evs ∧ Forall P evs.

(** The entry points of the four areas. *)
Definition areas : list str :=
  [lit "admin"; lit "schema"; lit "data"; lit "apex"].

(** The only events [deploy] gives rise to: a test for an area's
    controller, or a run of the external tool. *)
Definition deploy_event (ev : event) : Prop :=
  (∃ area, area ∈ areas ∧ ev = EvExists (path_join area (lit "controller.xml")))
  ∨ (∃ c, ev = EvRun c).


(** ** Concrete worlds *)

(** A world without a database, holding the given files. *)
Definition world_of (l : list (str * str)) : world unit :=
  World (list_to_map l) tt [].

(** A changeset line as the tool writes it, with the schema name in
    parentheses. *)
Definition tool_line : str :=
  lit "<changeSet id=" ++ [dquote] ++ lit "1" ++ [dquote] ++ lit " author="
  ++ [dquote] ++ lit "(ADMIN)-Generated" ++ [dquote] ++ lit ">" ++ [LF].


Definition hand_written : str :=
  lit "<changeSet id=" ++ [dquote] ++ lit "7" ++ [dquote] ++ lit " author="
  ++ [dquote] ++ lit "alice" ++ [dquote] ++ lit ">" ++ [LF]
  ++ lit "</changeSet>" ++ [LF].


(** A tool that succeeds quietly and leaves the files alone. *)
Definition tool_quiet (c : call) (d : unit) (f : gmap str str)
  : CompletedProcess * unit * gmap str str :=
  (Completed 0 (lit "Liquibase command 'update' was executed successfully."), d, f).

(** A tool that reports a constraint violation and still exits with 0. *)
Definition tool_ora (c : call) (d : unit) (f : gmap str str)
  : CompletedProcess * unit * gmap str str :=
  (Completed 0 (lit "Running changeset" ++ [LF]
                ++ lit "ORA-00001: unique constraint violated" ++ [LF]), d, f).

Definition no_abspath (p : str) : str := p.

Definition no_extractall (wallet target : str) (f : gmap str str)
  : option (gmap str str) := None.

Definition args_of (a : action) (pass : option str) : Args :=
  {| func := a; dbName := lit "demo"; dbUser := lit "APP";
     dbPass := pass; dbWallet := None; debug := false |}.



Definition w_twice : world unit :=
  world_of [(lit "schema/tables.xml", tool_line ++ tool_line)].



Definition w_secret : world unit :=
  world_of [(lit ".secret",
             lit "alpha beta" ++ [LF] ++ lit "gamma delta" ++ [LF])].

Definition w_admin : world unit :=
  world_of [(lit "admin/controller.xml", hand_written)].

(** * Properties *)

(** ** Text *)

Lemma startswith_spec (s p : str) :
  startswith s p = true ↔ ∃ t, s = p ++ t.
Proof.
  revert s. induction p as [|c p IH]; intros s; simpl.
  - split; [intros _; by exists s | done].
  - destruct s as [|d s]; simpl.
    + split; [done | intros [t Ht]; discriminate].
    + rewrite andb_true_iff, N.eqb_eq, IH. split.
      * intros [-> [t ->]]. by exists t.
      * intros [t Ht]. injection Ht as -> ->. eauto.
Qed.

Lemma str_in_spec (x s : str) :
  str_in x s = true ↔ ∃ a b, s = a ++ x ++ b.
Proof.
  induction s as [|c s IH]; simpl; rewrite orb_true_iff, startswith_spec.
  - split.
    + intros [[t Ht] | ?]; [|done]. exists [], t. done.
    + intros (a & b & H). left. destruct a; simpl in H.
      * by exists b.
      * discriminate.
  - rewrite IH. split.
    + intros [[t Ht] | (a & b & ->)].
      * by exists [], t.
      * by exists (c :: a), b.
    + intros (a & b & H). destruct a as [|c' a]; simpl in H.
      * left. by exists b.
      * right. injection H as -> ->. eauto.
Qed.

Lemma str_in_cons (x s : str) (c : char) :
  str_in x s = true → str_in x (c :: s) = true.
Proof. intros H. simpl. rewrite H. apply orb_true_r. Qed.

(** ** Regular expressions: the matcher decides the language *)













(** ** The changeset pattern, read as a statement about the line *)




(** ** Sequencing, loops and the primitive operations *)

Section Monad.
Context {DB : Type}.
Implicit Types w : world DB.

Lemma final_bind {A B} (m : M DB A) (k : A → M DB B) w :
  final (bind m k w) =
  match m w with
  | Ok a w' => final (k a w')
  | Raise _ w' => w'
  end.
Proof. unfold bind. by destruct (m w). Qed.

Lemma bind_ok_inv {A B} (m : M DB A) (k : A → M DB B) w b w2 :
  bind m k w = Ok b w2 → ∃ a w1, m w = Ok a w1 ∧ k a w1 = Ok b w2.
Proof. unfold bind. destruct (m w) as [a w1|]; [eauto | done]. Qed.


Lemma preserves_bind {A B} (I : world DB → Prop)
    (m : M DB A) (k : A → M DB B) :
  preserves I m →
  (∀ w a w', m w = Ok a w' → I w' → I (final (k a w'))) →
  preserves I (bind m k).
Proof.
  intros Hm Hk w Hw. rewrite final_bind. specialize (Hm w Hw).
  destruct (m w) as [a w'|e w'] eqn:E; simpl in Hm; [by eapply Hk | done].
Qed.

Lemma preserves_for_each {A} (I : world DB → Prop)
    (l : list A) (body : A → M DB unit) :
  (∀ x, x ∈ l → preserves I (body x)) →
  preserves I (for_each l body).
Proof.
  induction l as [|x l IH]; intros Hbody; simpl.
  - by intros w Hw.
  - apply preserves_bind.
    + apply Hbody. by left.
    + intros w [] w' _ Hw'. apply IH; [|done].
      intros y Hy. apply Hbody. by right.
Qed.

Lemma for_each_app {A} (l1 l2 : list A) (body : A → M DB unit) w :
  for_each (l1 ++ l2) body w =
  match for_each l1 body w with
  | Ok _ w1 => for_each l2 body w1
  | Raise e w1 => Raise e w1
  end.
Proof.
  revert w. induction l1 as [|x l1 IH]; intros w; simpl; [done|].
  unfold bind. destruct (body x w) as [[] w'|e w']; [apply IH | done].
Qed.

(** A loop that returns has run the body on every element, and every
    one of these runs returned. *)
Lemma for_each_ok_split {A} (l1 l2 : list A) (x : A)
    (body : A → M DB unit) w w3 :
  for_each (l1 ++ x :: l2) body w = Ok tt w3 →
  ∃ w1 w2, for_each l1 body w = Ok tt w1 ∧ body x w1 = Ok tt w2
           ∧ for_each l2 body w2 = Ok tt w3.
Proof.
  rewrite for_each_app. destruct (for_each l1 body w) as [[] w1|]; [|done].
  simpl. intros ([] & w2 & H1 & H2)%bind_ok_inv. eauto.
Qed.

Lemma os_remove_present (p : str) w (c : str) :
  files w !! p = Some c →
  os_remove p w =
  Ok tt (World (delete p (files w)) (db w) (trace w ++ [EvRemove p])).
Proof. intros H. unfold os_remove, bind, emit. simpl. by rewrite H. Qed.

Lemma os_remove_absent (p : str) w :
  files w !! p = None →
  os_remove p w =
  Raise FileNotFoundError (World (files w) (db w) (trace w ++ [EvRemove p])).
Proof. intros H. unfold os_remove, bind, emit. simpl. by rewrite H. Qed.

Lemma open_existing_present (p : str) (mode : open_mode) w (c : str) :
  files w !! p = Some c →
  open_existing p mode w =
  Ok c (World (files w) (db w) (trace w ++ [EvOpen p mode])).
Proof. intros H. unfold open_existing, bind, emit. simpl. by rewrite H. Qed.

Lemma open_existing_absent (p : str) (mode : open_mode) w :
  files w !! p = None →
  open_existing p mode w =
  Raise FileNotFoundError
    (World (files w) (db w) (trace w ++ [EvOpen p mode])).
Proof. intros H. unfold open_existing, bind, emit. simpl. by rewrite H. Qed.

Lemma open_existing_ok_inv (p : str) (mode : open_mode) w (c : str) w' :
  open_existing p mode w = Ok c w' →
  files w !! p = Some c ∧ files w' = files w.
Proof.
  destruct (files w !! p) as [c'|] eqn:E.
  - rewrite (open_existing_present _ _ _ _ E). by intros [= -> <-].
  - by rewrite (open_existing_absent _ _ _ E).
Qed.

(** [os.remove] takes away the one name it is given and nothing else. *)
Lemma os_remove_frame (p q : str) (o : option str) :
  (o = None ∨ p ≠ q) →
  preserves (fun w => files w !! q = o) (os_remove p).
Proof.
  intros Hpq w Hw. destruct (files w !! p) as [c|] eqn:E.
  - rewrite (os_remove_present _ _ _ E). simpl.
    destruct (decide (p = q)) as [->|Hne].
    + destruct Hpq as [->|?]; [apply lookup_delete_eq | done].
    + by rewrite lookup_delete_ne.
  - by rewrite (os_remove_absent _ _ E).
Qed.

Lemma open_existing_frame (p : str) (mode : open_mode)
    (P : gmap str str → Prop) :
  preserves (fun w => P (files w)) (open_existing p mode).
Proof.
  intros w Hw. destruct (files w !! p) as [c|] eqn:E.
  - by rewrite (open_existing_present _ _ _ _ E).
  - by rewrite (open_existing_absent _ _ _ E).
Qed.

(** ** The pre-processor, one file at a time *)

Lemma scan_line_frame (file line q : str) (o : option str) :
  (o = None ∨ file ≠ q ∨ re_search generated_re line = false) →
  preserves (fun w : world DB => files w !! q = o) (scan_line file line).
Proof.
  intros H. unfold scan_line.
  destruct (re_search generated_re line) eqn:E.
  - apply os_remove_frame. destruct H as [?|[?|?]]; [by left|by right|done].
  - by intros w Hw.
Qed.

(** A file is only touched while it is the current one, and then only if
    it is a controller to remove or one of its lines matches. *)
Lemma pre_generate_file_frame (directory : str) (rc : bool)
    (file q : str) (o : option str) :
  (o = None ∨ file ≠ q ∨
   (startswith file (directory ++ lit "/controller") && rc = false
    ∧ ∀ c, o = Some c →
           ∀ line, line ∈ file_lines c →
                   re_search generated_re line = false)) →
  preserves (fun w : world DB => files w !! q = o)
    (pre_generate_file directory rc file).
Proof.
  intros H. unfold pre_generate_file.
  destruct (startswith file (directory ++ lit "/controller") && rc) eqn:E.
  - apply os_remove_frame. destruct H as [?|[?|[? _]]]; [by left|by right|done].
  - apply preserves_bind.
    + apply (open_existing_frame _ _ (fun f => f !! q = o)).
    + intros w c w' [Hc Hf]%open_existing_ok_inv Hw'.
      apply preserves_for_each; [|done].
      intros line Hline. apply scan_line_frame.
      destruct H as [?|[?|[_ H]]]; [by left|by right; left|].
      destruct (decide (file = q)) as [->|?]; [|by right; left].
      right; right. apply (H c); [|done]. congruence.
Qed.

(** If the scan of a file with a matching line returns, the file is
    gone. *)
Lemma scan_lines_deletes (file : str) (lines : list str) w w' :
  for_each lines (scan_line file) w = Ok tt w' →
  (∃ line, line ∈ lines ∧ re_search generated_re line = true) →
  files w' !! file = None.
Proof.
  intros Hrun (line & Hin & Hm).
  apply list_elem_of_split in Hin as (l1 & l2 & ->).
  apply for_each_ok_split in Hrun as (w1 & w2 & _ & Hline & Hrest).
  assert (H2 : files w2 !! file = None).
  { unfold scan_line in Hline. rewrite Hm in Hline.
    destruct (files w1 !! file) as [c|] eqn:E.
    - rewrite (os_remove_present _ _ _ E) in Hline.
      injection Hline as <-. simpl. apply lookup_delete_eq.
    - by rewrite (os_remove_absent _ _ E) in Hline. }
  pose proof (preserves_for_each (fun w => files w !! file = None)
                l2 (scan_line file)) as Hp.
  specialize (Hp (fun x _ => scan_line_frame file x file None (or_introl eq_refl))).
  specialize (Hp w2 H2). by rewrite Hrest in Hp.
Qed.

(** The second matching line of a file finds the file gone. *)
Lemma scan_lines_raises (file : str) (la lb lc : list str) (m1 m2 : str) w :
  re_search generated_re m1 = true →
  re_search generated_re m2 = true →
  returns (for_each (la ++ m1 :: lb ++ m2 :: lc) (scan_line file) w) = false.
Proof.
  intros H1 H2.
  destruct (for_each _ _ w) as [[] w3|] eqn:Hrun; [|done]. exfalso.
  replace (la ++ m1 :: lb ++ m2 :: lc)
    with ((la ++ m1 :: lb) ++ m2 :: lc) in Hrun
    by (by rewrite <- app_assoc).
  apply for_each_ok_split in Hrun as (w1 & w2 & Hfirst & Hline & _).
  assert (files w1 !! file = None) as E.
  { eapply scan_lines_deletes; [done|]. exists m1. split; [|done].
    apply elem_of_app. right. by left. }
  unfold scan_line in Hline. rewrite H2 in Hline.
  by rewrite (os_remove_absent _ _ E) in Hline.
Qed.


Lemma pre_generate_file_raises (directory : str) (rc : bool)
    (file content : str) (la lb lc : list str) (m1 m2 : str) w :
  startswith file (directory ++ lit "/controller") && rc = false →
  files w !! file = Some content →
  file_lines content = la ++ m1 :: lb ++ m2 :: lc →
  re_search generated_re m1 = true →
  re_search generated_re m2 = true →
  returns (pre_generate_file directory rc file w) = false.
Proof.
  intros Hctl Hfile Hlines H1 H2. unfold pre_generate_file.
  rewrite Hctl. unfold bind.
  rewrite (open_existing_present _ _ _ _ Hfile), Hlines.
  by apply scan_lines_raises.
Qed.

End Monad.

(** ** The pre-processor over a directory *)

Section PreGenerate.
Context {DB : Type}.
Variable scandir_order : list str → list str.
Hypothesis scandir_order_perm : ∀ l, scandir_order l ≡ₚ l.
Implicit Types w : world DB.

Lemma iglob_xml_eq (directory : str) w :
  iglob_xml scandir_order directory w =
  Ok (List.filter (glob_match directory)
        (scandir_order (elements (dom (files w)))))
     (World (files w) (db w) (trace w ++ [EvGlob directory])).
Proof. reflexivity. Qed.

Lemma elem_of_iglob (directory p : str) (f : gmap str str) :
  p ∈ List.filter (glob_match directory) (scandir_order (elements (dom f)))
  ↔ glob_match directory p = true ∧ is_Some (f !! p).
Proof using scandir_order_perm.
  rewrite list_elem_of_In, filter_In, <- list_elem_of_In.
  rewrite scandir_order_perm, elem_of_elements, elem_of_dom. tauto.
Qed.



(** Up to the first visit of [file], the loop leaves it as it was. *)
Lemma pre_generate_files_before (directory : str) (rc : bool)
    (l1 : list str) (file content : str) w w1 :
  file ∉ l1 →
  files w !! file = Some content →
  for_each l1 (pre_generate_file directory rc) w = Ok tt w1 →
  files w1 !! file = Some content.
Proof.
  intros Hnotin Hfile Hrun.
  pose proof (preserves_for_each (fun w => files w !! file = Some content)
                l1 (pre_generate_file (DB:=DB) directory rc)) as Hp.
  assert (Hb : ∀ x, x ∈ l1 →
               preserves (fun w : world DB => files w !! file = Some content)
                 (pre_generate_file directory rc x)).
  { intros x Hx. apply pre_generate_file_frame. right; left.
    intros ->. done. }
  specialize (Hp Hb w Hfile). by rewrite Hrun in Hp.
Qed.

Lemma pre_generate_two_matches_raise (directory : str) (rc : bool)
    (file content : str) (la lb lc : list str) (m1 m2 : str) w :
  files w !! file = Some content →
  glob_match directory file = true →
  startswith file (directory ++ lit "/controller") && rc = false →
  file_lines content = la ++ m1 :: lb ++ m2 :: lc →
  re_search generated_re m1 = true →
  re_search generated_re m2 = true →
  returns (pre_generate scandir_order directory rc w) = false.
Proof using scandir_order_perm.
  intros Hfile Hglob Hctl Hlines H1 H2.
  destruct (pre_generate _ _ _ w) as [[] w3|] eqn:Hrun; [|done]. exfalso.
  unfold pre_generate in Hrun.
  apply bind_ok_inv in Hrun as (found & w0 & Hglobbed & Hrun).
  rewrite iglob_xml_eq in Hglobbed. injection Hglobbed as <- <-.
  assert (Hin : file ∈ List.filter (glob_match directory)
                  (scandir_order (elements (dom (files w))))).
  { apply elem_of_iglob. by rewrite Hfile. }
  apply list_elem_of_split_l in Hin as (l1 & l2 & Heq & Hnotin).
  rewrite Heq in Hrun.
  apply for_each_ok_split in Hrun as (w1 & w2 & Hbefore & Hat & _).
  eapply pre_generate_files_before in Hbefore; [|done..].
  pose proof (pre_generate_file_raises directory rc file content
                la lb lc m1 m2 w1 Hctl Hbefore Hlines H1 H2) as Hr.
  by rewrite Hat in Hr.
Qed.





End PreGenerate.

(** ** Lines *)



(** ** The two handles of [post_generate] on one file *)





(** ** Reading back what was written *)














(** ** The post-processor over a directory *)

Section PostGenerate.
Context {DB : Type}.
Variable scandir_order : list str → list str.
Hypothesis scandir_order_perm : ∀ l, scandir_order l ≡ₚ l.
Implicit Types w : world DB.





End PostGenerate.

(** ** The transcript of the external tool *)

Lemma splitlines_cons_elem (c : char) (s line : str) :
  line ∈ splitlines s →
  ∃ line', line' ∈ splitlines (c :: s) ∧ (line' = line ∨ line' = c :: line).
Proof.
  intros Hin. simpl. destruct (is_linebreak c) eqn:Eb.
  - destruct (c =? CR).
    + destruct s as [|d s]; [by apply elem_of_nil in Hin|].
      destruct (d =? LF) eqn:Ed.
      * apply N.eqb_eq in Ed as ->. simpl in Hin.
        exists line. split; [done | by left].
      * exists line. split; [by right | by left].
    + exists line. split; [by right | by left].
  - destruct (splitlines s) as [|l ls]; [by apply elem_of_nil in Hin|].
    apply elem_of_cons in Hin as [->|Hin].
    + exists (c :: l). split; [by left | by right].
    + exists line. split; [by right | by left].
Qed.

Lemma splitlines_prefix (x b : str) :
  x ≠ [] → forallb (fun c => negb (is_linebreak c)) x = true →
  ∃ l ls, splitlines (x ++ b) = (x ++ l) :: ls.
Proof.
  induction x as [|c x IH]; [done|]. intros _ H. simpl in H.
  apply andb_true_iff in H as [Hc Hx]. apply negb_true_iff in Hc.
  simpl. rewrite Hc. destruct x as [|d x].
  - simpl. destruct (splitlines b) as [|l ls]; [by exists [], [] | by exists l, ls].
  - destruct IH as (l & ls & ->); [done..|]. by exists l, ls.
Qed.

(** A piece of text without line boundaries lies within one line. *)
Lemma substring_in_line (a x b : str) :
  x ≠ [] → forallb (fun c => negb (is_linebreak c)) x = true →
  ∃ line, line ∈ splitlines (a ++ x ++ b) ∧ str_in x line = true.
Proof.
  intros Hne Hx. induction a as [|c a IH]; simpl.
  - destruct (splitlines_prefix x b Hne Hx) as (l & ls & ->).
    exists (x ++ l). split; [by left|]. apply str_in_spec. by exists [], l.
  - destruct IH as (line & Hin & Hline).
    destruct (splitlines_cons_elem c _ _ Hin) as (line' & Hin' & [->| ->]).
    + by exists line.
    + exists (c :: line). split; [done | by apply str_in_cons].
Qed.

Lemma str_in_trans (x y s : str) :
  str_in x y = true → str_in y s = true → str_in x s = true.
Proof.
  rewrite !str_in_spec. intros (a & b & ->) (a' & b' & ->).
  exists (a' ++ a), (b ++ b'). by rewrite <- !app_assoc.
Qed.

Lemma foldl_flag {A} (f : A → bool) (l : list A) (st : Z) :
  foldl (fun exit_status x => if f x then 1%Z else exit_status) st l =
  if existsb f l then 1%Z
  else st.
Proof.
  revert st. induction l as [|x l IH]; intros st; [done|]. simpl.
  rewrite IH. destruct (f x); simpl; [by destruct (existsb f l) | done].
Qed.

Lemma scan_transcript_eq (out : str) :
  scan_transcript out =
  if existsb has_error_marker (List.filter nonempty (splitlines out))
  then 1%Z else 0%Z.
Proof. apply foldl_flag. Qed.

(** Every marker holds a character that is not whitespace. *)
Lemma marker_not_blank (line : str) :
  has_error_marker line = true → strip_nonempty line = true.
Proof.
  unfold has_error_marker. rewrite existsb_exists.
  intros (x & Hx & Hin). apply str_in_spec in Hin as (a & b & ->).
  unfold strip_nonempty. rewrite !existsb_app.
  assert (existsb (fun c => negb (isspace c)) x = true) as ->.
  { simpl in Hx. destruct Hx as [<-|[<-|[<-|[<-|[<-|[]]]]]]; reflexivity. }
  by rewrite orb_true_r.
Qed.

Lemma strip_nonempty_nonempty (line : str) :
  strip_nonempty line = true → nonempty line = true.
Proof. by destruct line. Qed.

Lemma scan_transcript_clean (out : str) :
  scan_transcript out = 0%Z ↔
  ∀ line, line ∈ splitlines out → strip_nonempty line = true →
          has_error_marker line = false.
Proof.
  rewrite scan_transcript_eq.
  destruct (existsb _ _) eqn:E.
  - split; [done|]. intros H. exfalso.
    apply existsb_exists in E as (line & Hin & Hm).
    apply filter_In in Hin as [Hin _]. apply list_elem_of_In in Hin.
    rewrite (H line Hin) in Hm; [done | by apply marker_not_blank].
  - split; [|done]. intros _ line Hin Hb.
    destruct (has_error_marker line) eqn:Hm; [|done].
    assert (existsb has_error_marker
              (List.filter nonempty (splitlines out)) = true) as E'.
    { apply existsb_exists. exists line. split; [|done].
      apply filter_In. split; [by apply list_elem_of_In|].
      by apply strip_nonempty_nonempty. }
    congruence.
Qed.

Lemma scan_transcript_ORA (a b : str) :
  scan_transcript (a ++ lit "ORA-00001" ++ b) ≠ 0%Z.
Proof.
  rewrite scan_transcript_clean. intros H.
  destruct (substring_in_line a (lit "ORA-00001") b) as (line & Hin & Hline);
    [done..|].
  assert (Hm : has_error_marker line = true).
  { unfold has_error_marker. apply existsb_exists. exists (lit "ORA-").
    split; [simpl; auto|]. by apply (str_in_trans _ (lit "ORA-00001")). }
  rewrite (H line Hin) in Hm; [done | by apply marker_not_blank].
Qed.

(** ** What the script does to the trace and to the files *)

Section Effects.
Context {DB : Type}.
Implicit Types w : world DB.

Lemma extends_refl (P : event → Prop) w : extends P (trace w) w.
Proof. exists []. by rewrite app_nil_r. Qed.

Lemma extends_snoc (P : event → Prop) (t0 : list event) w w' (ev : event) :
  P ev → trace w' = trace w ++ [ev] → extends P t0 w → extends P t0 w'.
Proof.
  intros Hev Ht (evs & Hw & HP). exists (evs ++ [ev]).
  rewrite Ht, Hw, app_assoc. split; [done|].
  apply Forall_app. split; [done | by constructor].
Qed.

Lemma preserves_ret {A} (I : world DB → Prop) (a : A) : preserves I (ret a).
Proof. by intros w Hw. Qed.

Lemma preserves_raise {A} (I : world DB → Prop) (e : exn) :
  preserves I (raise (A:=A) e).
Proof. by intros w Hw. Qed.


Lemma preserves_bind' {A B} (I : world DB → Prop)
    (m : M DB A) (k : A → M DB B) :
  preserves I m → (∀ a, preserves I (k a)) → preserves I (bind m k).
Proof. intros Hm Hk. apply preserves_bind; [done|]. intros w a w' _. apply Hk. Qed.

Section Trace.
Variable P : event → Prop.
Variable t0 : list event.


Lemma os_remove_extends (p : str) :
  P (EvRemove p) → preserves (extends P t0) (os_remove (DB:=DB) p).
Proof.
  intros Hev w Hw. unfold os_remove, bind, emit. simpl.
  destruct (files w !! p); simpl; by eapply extends_snoc.
Qed.

Lemma open_existing_extends (p : str) (mode : open_mode) :
  P (EvOpen p mode) →
  preserves (extends P t0) (open_existing (DB:=DB) p mode).
Proof.
  intros Hev w Hw. unfold open_existing, bind, emit. simpl.
  destruct (files w !! p); simpl; by eapply extends_snoc.
Qed.

Lemma store_extends (p content : str) :
  P (EvWrite p) → preserves (extends P t0) (store (DB:=DB) p content).
Proof. intros Hev w Hw. by eapply extends_snoc. Qed.

Lemma os_path_exists_extends (p : str) :
  P (EvExists p) → preserves (extends P t0) (os_path_exists (DB:=DB) p).
Proof. intros Hev w Hw. by eapply extends_snoc. Qed.


Lemma subprocess_run_extends
    (sqlcl : call → DB → gmap str str
             → CompletedProcess * DB * gmap str str) (c : call) :
  P (EvRun c) → preserves (extends P t0) (subprocess_run sqlcl c).
Proof.
  intros Hev w Hw. unfold subprocess_run, bind, emit. simpl.
  destruct (sqlcl c (db w) (files w)) as [[r d] f]. simpl.
  by eapply extends_snoc.
Qed.

End Trace.

End Effects.

Section ProgramEffects.
Context {DB : Type}.
Variable sqlcl :
  call → DB → gmap str str → CompletedProcess * DB * gmap str str.
Variable scandir_order : list str → list str.
Variable environ : gmap str str.
Variable abspath : str → str.
Variable extractall : str → str → gmap str str → option (gmap str str).
Implicit Types w : world DB.

Lemma run_sqlcl_eq (run_as password service path cmd tns_admin : str) w :
  let c := Call [lit "sql"; lit "/nolog"] (lit "./" ++ path)
             (sql_cmd run_as password service cmd)
             (<[lit "TNS_ADMIN" := tns_admin]>
                (<[lit "password" := password]> environ)) in
  let answer := sqlcl c (db w) (files w) in
  let w' := World answer.2 answer.1.2 (trace w ++ [EvRun c]) in
  run_sqlcl sqlcl environ run_as password service path cmd tns_admin w =
  if negb (returncode answer.1.1 =? 0)%Z
     || negb (scan_transcript (stdout answer.1.1) =? 0)%Z
  then Raise (SystemExit 1) w'
  else Ok tt w'.
Proof.
  cbv zeta. unfold run_sqlcl, subprocess_run, bind, emit, raise, ret.
  cbn [files db trace].
  destruct (sqlcl _ (db w) (files w)) as [[r d] f]. cbn [fst snd].
  by destruct (negb _ || negb _).
Qed.

Lemma deploy_call_eq (path user password tns_admin : str) (args : Args) w :
  let w' := World (files w) (db w)
              (trace w ++ [EvExists (path_join path (lit "controller.xml"))]) in
  deploy_call sqlcl environ path user password tns_admin args w =
  if bool_decide (is_Some (files w !! path_join path (lit "controller.xml")))
  then run_sqlcl sqlcl environ user password (dbName args) path
         (lit "lb update -changelog-file controller.xml;") tns_admin w'
  else Ok tt w'.
Proof.
  cbv zeta. unfold deploy_call, os_path_exists, bind, emit, ret.
  cbn [files db trace]. by destruct (bool_decide _).
Qed.

Section Trace.
Variable P : event → Prop.
Variable t0 : list event.
Hypothesis P_run : ∀ c, P (EvRun c).

Lemma run_sqlcl_extends (run_as password service path cmd tns_admin : str) :
  preserves (extends P t0)
    (run_sqlcl sqlcl environ run_as password service path cmd tns_admin).
Proof using P_run.
  unfold run_sqlcl. apply preserves_bind'.
  - by apply subprocess_run_extends.
  - intros r. simpl. destruct (negb _ || negb _);
      [apply preserves_raise | apply preserves_ret].
Qed.

Lemma deploy_call_extends (path user password tns_admin : str)
    (args : Args) :
  P (EvExists (path_join path (lit "controller.xml"))) →
  preserves (extends P t0)
    (deploy_call sqlcl environ path user password tns_admin args).
Proof using P_run.
  intros Hev. unfold deploy_call. apply preserves_bind'.
  - by apply os_path_exists_extends.
  - intros []; [apply run_sqlcl_extends | apply preserves_ret].
Qed.

Lemma deploy_extends (password tns_admin : str) (args : Args) :
  (∀ area, area ∈ areas →
           P (EvExists (path_join area (lit "controller.xml")))) →
  preserves (extends P t0) (deploy sqlcl environ password tns_admin args).
Proof using P_run.
  intros Hev. unfold deploy.
  repeat (apply preserves_bind'; [|intros _]);
    apply deploy_call_extends, Hev; unfold areas;
    repeat (first [by left | right]).
Qed.

Hypothesis P_glob : ∀ d, P (EvGlob d).
Hypothesis P_remove : ∀ p, P (EvRemove p).
Hypothesis P_write : ∀ p, P (EvWrite p).
Hypothesis P_exists : ∀ p, P (EvExists p).
Hypothesis P_extract : ∀ p, P (EvExtract p).



Hypothesis P_open_xml :
  ∀ directory file mode,
    glob_match directory file = true → P (EvOpen file mode).
Hypothesis P_open_sqlnet :
  ∀ dir mode, P (EvOpen (path_join dir (lit "sqlnet.ora")) mode).





End Trace.


(** Every call of the pre-processor or of the post-processor lists the
    directory first. *)
Lemma pre_generate_globs (directory : str) (rc : bool) w :
  ∃ evs, trace (final (pre_generate scandir_order directory rc w))
         = trace w ++ EvGlob directory :: evs.
Proof.
  unfold pre_generate. rewrite final_bind. simpl.
  set (w1 := World _ _ _).
  destruct (preserves_for_each (extends (fun _ => True) (trace w1))
              (List.filter (glob_match directory)
                 (scandir_order (elements (dom (files w)))))
              (pre_generate_file (DB:=DB) directory rc)) with w1
    as (evs & Hevs & _).
  - intros file _. unfold pre_generate_file. destruct (_ && rc).
    + by apply os_remove_extends.
    + apply preserves_bind'; [by apply open_existing_extends|].
      intros content. apply preserves_for_each. intros line _.
      unfold scan_line. destruct (re_search _ _);
        [by apply os_remove_extends | apply preserves_ret].
  - apply extends_refl.
  - exists evs. rewrite Hevs. unfold w1. simpl. by rewrite <- app_assoc.
Qed.

Lemma post_generate_globs (directory : str) w :
  ∃ evs, trace (final (post_generate scandir_order directory w))
         = trace w ++ EvGlob directory :: evs.
Proof.
  unfold post_generate. rewrite final_bind. simpl.
  set (w1 := World _ _ _).
  destruct (preserves_for_each (extends (fun _ => True) (trace w1))
              (List.filter (glob_match directory)
                 (scandir_order (elements (dom (files w)))))
              (post_generate_file (DB:=DB))) with w1
    as (evs & Hevs & _).
  - intros file _. unfold post_generate_file.
    apply preserves_bind'; [by apply open_existing_extends|].
    intros content.
    apply preserves_bind'; [by apply open_existing_extends|].
    intros _. by apply store_extends.
  - apply extends_refl.
  - exists evs. rewrite Hevs. unfold w1. simpl. by rewrite <- app_assoc.
Qed.

(** The files change only by what the external tool does to them while
    [deploy] runs. *)
Lemma deploy_files (I : gmap str str → Prop)
    (password tns_admin : str) (args : Args) :
  (∀ c d f, I f → I (sqlcl c d f).2) →
  preserves (fun w => I (files w))
    (deploy sqlcl environ password tns_admin args).
Proof.
  intros Htool.
  assert (Hcall : ∀ path user,
            preserves (fun w => I (files w))
              (deploy_call sqlcl environ path user password tns_admin args)).
  { intros path user w Hw. rewrite deploy_call_eq.
    destruct (bool_decide _); [|done].
    rewrite run_sqlcl_eq. simpl.
    destruct (negb _ || negb _); simpl; by apply Htool. }
  unfold deploy. repeat (apply preserves_bind'; [|intros _]); apply Hcall.
Qed.

(** The password block when no password comes with the flag. *)
Lemma resolve_password_secret (args : Args) w :
  truthy (dbPass args) = false →
  let w' := World (files w) (db w)
              (trace w ++ [EvOpen (lit ".secret") mode_r]) in
  resolve_password args w =
  match files w !! lit ".secret" with
  | Some content =>
      match last (split (readline content).1) with
      | Some token => Ok token w'
      | None => Raise (SystemExit 1) w'
      end
  | None => Raise (SystemExit 1) w'
  end.
Proof.
  intros Hflag. cbv zeta. unfold resolve_password. rewrite Hflag.
  unfold try_except, bind.
  destruct (files w !! lit ".secret") as [content|] eqn:E.
  - rewrite (open_existing_present _ _ _ _ E).
    by destruct (last _).
  - by rewrite (open_existing_absent _ _ _ E).
Qed.





End ProgramEffects.

(** * The claims *)

Section Claims.
Context {DB : Type}.
Variable sqlcl :
  call → DB → gmap str str → CompletedProcess * DB * gmap str str.
Variable scandir_order : list str → list str.
Hypothesis scandir_order_perm : ∀ l, scandir_order l ≡ₚ l.
Variable environ : gmap str str.
Variable abspath : str → str.
Variable extractall : str → str → gmap str str → option (gmap str str).
Implicit Types w : world DB.





(** C4: [run_sqlcl] returns exactly when the exit code is zero and no
    non-blank line of the transcript holds one of the error markers;
    otherwise it ends the run with [SystemExit(1)].  In particular a
    transcript with [ORA-00001] anywhere in it fails the run, whatever
    the exit code. *)
Theorem C4_run_sqlcl_success_iff
    (run_as password service path cmd tns_admin : str) w :
  let c := Call [lit "sql"; lit "/nolog"] (lit "./" ++ path)
             (sql_cmd run_as password service cmd)
             (<[lit "TNS_ADMIN" := tns_admin]>
                (<[lit "password" := password]> environ)) in
  let result := (sqlcl c (db w) (files w)).1.1 in
  let outcome :=
    run_sqlcl sqlcl environ run_as password service path cmd tns_admin w in
  (returns outcome = true ↔
     returncode result = 0%Z
     ∧ ∀ line, line ∈ splitlines (stdout result) →
               strip_nonempty line = true →
               has_error_marker line = false)
  ∧ (returns outcome = false → ∃ w', outcome = Raise (SystemExit 1) w')
  ∧ (∀ a b, stdout result = a ++ lit "ORA-00001" ++ b →
            returns outcome = false).
Proof using Type.
  clear scandir_order scandir_order_perm abspath extractall.
  intros c result outcome. unfold outcome. rewrite run_sqlcl_eq.
  fold c. fold result. rewrite <- scan_transcript_clean.
  pose proof (Z.eqb_spec (returncode result) 0) as Hrc.
  pose proof (Z.eqb_spec (scan_transcript (stdout result)) 0) as Hscan.
  split; [|split].
  - destruct Hrc, Hscan; simpl; intuition congruence.
  - destruct Hrc, Hscan; simpl; eauto; done.
  - intros a b Hout.
    assert (scan_transcript (stdout result) ≠ 0%Z)
      by (rewrite Hout; apply scan_transcript_ORA).
    destruct Hrc, Hscan; simpl; done.
Qed.


(** C10: [deploy] itself only tests the four controllers for existence
    and starts the external tool: it lists no directory (so neither
    [pre_generate] nor [post_generate], which both start by listing one,
    is run), opens, writes and removes no file; and whatever holds of
    the files and is kept by the external tool holds after [deploy]. *)
Theorem C10_deploy_touches_no_changelog
    (password tns_admin : str) (args : Args) w :
  extends deploy_event (trace w)
    (final (deploy sqlcl environ password tns_admin args w))
  ∧ (∀ ev, deploy_event ev →
           ∀ p mode, ev ≠ EvGlob p ∧ ev ≠ EvOpen p mode
                     ∧ ev ≠ EvWrite p ∧ ev ≠ EvRemove p)
  ∧ (∀ directory rc w0,
       ∃ evs, trace (final (pre_generate (DB:=DB) scandir_order
                              directory rc w0))
              = trace w0 ++ EvGlob directory :: evs)
  ∧ (∀ directory w0,
       ∃ evs, trace (final (post_generate (DB:=DB) scandir_order
                              directory w0))
              = trace w0 ++ EvGlob directory :: evs)
  ∧ (∀ I : gmap str str → Prop,
       (∀ c d f, I f → I (sqlcl c d f).2) →
       I (files w) →
       I (files (final (deploy sqlcl environ password tns_admin args w)))).
Proof using Type.
  split; [|split; [|split; [|split]]].
  - apply deploy_extends.
    + intros c. right. by exists c.
    + intros area Harea. left. by exists area.
    + apply extends_refl.
  - intros ev [(area & _ & ->)|(c & ->)] p mode; done.
  - apply pre_generate_globs.
  - apply post_generate_globs.
  - intros I Htool Hw.
    by apply (deploy_files sqlcl environ I password tns_admin args Htool).
Qed.

(** C3, as amended: when the flag gives no password (none, or an empty
    one), the password block resolves the password to the last
    whitespace-delimited token on the first line of [.secret]; if the
    file is missing or its first line has no token, the block raises
    [SystemExit(1)], and a run without [--debug] ends there, having
    only tried to open the file and started no external tool. *)
Theorem C3_password_from_secret_file (args : Args) w :
  truthy (dbPass args) = false →
  let w' := World (files w) (db w)
              (trace w ++ [EvOpen (lit ".secret") mode_r]) in
  (∀ content token,
     files w !! lit ".secret" = Some content →
     last (split (readline content).1) = Some token →
     resolve_password args w = Ok token w')
  ∧ (files w !! lit ".secret" = None
     ∨ (∃ content, files w !! lit ".secret" = Some content
                   ∧ split (readline content).1 = []) →
     resolve_password args w = Raise (SystemExit 1) w'
     ∧ (debug args = false →
        main sqlcl scandir_order environ abspath extractall args w
        = Raise (SystemExit 1) w')).
Proof using Type.
  intros Hflag w'.
  pose proof (resolve_password_secret args w Hflag) as Hr.
  cbv zeta in Hr. fold w' in Hr. split.
  - intros content token Hfile Htoken. by rewrite Hr, Hfile, Htoken.
  - intros Hbad.
    assert (Hraise : resolve_password args w = Raise (SystemExit 1) w').
    { rewrite Hr. destruct Hbad as [->|(content & -> & ->)]; done. }
    split; [done|]. intros Hdebug.
    unfold main. rewrite Hdebug. unfold bind at 1. unfold ret at 1.
    unfold bind at 1. by rewrite Hraise.
Qed.


End Claims.

(** * The claims at concrete inputs *)




(** C2 fails on the code: on a file with two matching lines the second
    [os.remove] finds the file gone and raises. *)
Theorem C2_second_match_raises :
  ∃ w', pre_generate id (lit "schema") false w_twice
        = Raise FileNotFoundError w'
        ∧ files w' !! lit "schema/tables.xml" = None
        ∧ trace w' = [EvGlob (lit "schema");
                      EvOpen (lit "schema/tables.xml") mode_r;
                      EvRemove (lit "schema/tables.xml");
                      EvRemove (lit "schema/tables.xml")].
Proof.
  eexists. split; [vm_compute; reflexivity|].
  split; vm_compute; reflexivity.
Qed.





(** C3 as stated fails: the password is taken from the first line of the
    secret file, and it is that line's last token. *)
Lemma C3_counterexample :
  ¬ (∀ (args : Args) (w : world unit) (content token : str),
       truthy (dbPass args) = false →
       files w !! lit ".secret" = Some content →
       spec_first_token_last_line content = Some token →
       ∃ w', resolve_password args w = Ok token w').
Proof.
  intros H.
  destruct (H (args_of act_deploy None) w_secret
              (lit "alpha beta" ++ [LF] ++ lit "gamma delta" ++ [LF])
              (lit "gamma")) as (w' & Hw');
    [vm_compute; reflexivity..|].
  vm_compute in Hw'. discriminate Hw'.
Qed.

Lemma C3_witness :
  resolve_password (args_of act_deploy None) w_secret
  = Ok (lit "beta")
      (World (files w_secret) tt [EvOpen (lit ".secret") mode_r])
  ∧ main tool_quiet id ∅ no_abspath no_extractall
      (args_of act_deploy None) (world_of [])
    = Raise (SystemExit 1)
        (World ∅ tt [EvOpen (lit ".secret") mode_r]).
Proof.
  split.
  - destruct (C3_password_from_secret_file tool_quiet id ∅ no_abspath
                no_extractall (args_of act_deploy None) w_secret eq_refl)
      as [Hgood _].
    apply (Hgood (lit "alpha beta" ++ [LF] ++ lit "gamma delta" ++ [LF]));
      vm_compute; reflexivity.
  - destruct (C3_password_from_secret_file tool_quiet id ∅ no_abspath
                no_extractall (args_of act_deploy None) (world_of []) eq_refl)
      as [_ Hbad].
    apply Hbad; [left; vm_compute; reflexivity | reflexivity].
Defined.

Lemma C4_witness :
  returns (run_sqlcl tool_ora ∅ (lit "ADMIN") (lit "secret") (lit "demo")
             (lit "admin") (lit "lb update -changelog-file controller.xml;")
             (lit "/wallet") (world_of [])) = false.
Proof.
  apply (C4_run_sqlcl_success_iff tool_ora ∅ (lit "ADMIN") (lit "secret")
           (lit "demo") (lit "admin")
           (lit "lb update -changelog-file controller.xml;")
           (lit "/wallet") (world_of []))
    with (a := lit "Running changeset" ++ [LF])
         (b := lit ": unique constraint violated" ++ [LF]).
  vm_compute; reflexivity.
Defined.




Lemma C10_witness :
  files (final (deploy tool_quiet ∅ (lit "secret") (lit "/wallet")
                  (args_of act_deploy None) w_admin)) = files w_admin.
Proof.
  destruct (C10_deploy_touches_no_changelog tool_quiet id ∅ (lit "secret")
              (lit "/wallet") (args_of act_deploy None) w_admin)
    as (_ & _ & _ & _ & Hframe).
  apply (Hframe (fun f => f = files w_admin)); [|reflexivity].
  intros c d f Hf. exact Hf.
Defined.
